(** * shiromana-cli: media ingestion and media resolution (src/command.rs)

    Shallow embedding of [do_info]'s [get_media] closure, [parse_input_file],
    [add_one_media] and [do_add].  The library engine ([shiromana_rs::Library])
    and the host (file system, MIME sniffing, URL parsing, terminal prompt) are
    external collaborators: they are type classes whose instances are
    arbitrary, and every theorem below quantifies over them.

    Strings are modelled as [String.string] (ASCII): byte length is
    [String.length], and [str::trim] removes ASCII white space. *)

From Stdlib Require Import String Ascii List NArith Arith Bool Lia.
Import ListNotations.
Open Scope string_scope.

(** ** Data model *)

(** Rust's [Result]. *)
Inductive result (A B : Type) : Type :=
| Ok (a : A)
| Err (e : B).
Arguments Ok {A B} a.
Arguments Err {A B} e.

Definition is_ok {A B} (r : result A B) : bool :=
  match r with Ok _ => true | Err _ => false end.

(** [shiromana_rs::media::MediaType]. *)
Inductive MediaType := Image | Audio | Video | Text | Other.

(** The fields of [shiromana_rs::media::Media] read by the code. *)
Record Media := mkMedia {
  id : N;
  hash : string;
  filename : string;
  kind : MediaType
}.

Definition Uuid := string.

(** [shiromana_rs::misc::Error]: the code only inspects [AlreadyExists]. *)
Inductive LibError :=
| AlreadyExists (s : string)
| OtherError (msg : string).

(** The engine handle [Library], as used by this crate.  Queries take
    [&self]; [add_media], [create_series] and [add_to_series] take
    [&mut self] and return the updated handle. *)
Class Library (E : Type) := {
  add_media : E -> string -> MediaType -> option string -> option string ->
              result N LibError * E;
  get_media : E -> N -> result Media LibError;
  query_media : E -> string -> result (list N) LibError;
  get_media_by_filename : E -> string -> result (list N) LibError;
  get_hash_size : E -> nat;
  create_series : E -> string -> option string -> result Uuid LibError * E;
  get_series_by_name : E -> string -> result Uuid LibError;
  add_to_series : E -> N -> Uuid -> option N -> bool -> result unit LibError * E
}.

(** The host: file system, [tree_magic] and [url]. *)
Class Host := {
  read_to_string : string -> result string string;
  is_file : string -> bool;
  (** [Url::parse(v).ok().map(|u| u.path().to_string())] *)
  url_path : string -> option string;
  (** [tree_magic::from_filepath] *)
  tree_magic : string -> string
}.

(** The [dialoguer] prompt of [do_add]:
    [Input::...validate_with(..).interact_text()] gives a name accepted by the
    validator (no series of that name in the library), or the I/O error. *)
Class Prompt (E : Type) := {
  prompt_series_name : E -> result string string
}.

(** ** Strings *)

Definition is_ws (c : ascii) : bool :=
  let n := nat_of_ascii c in (Nat.leb 9 n && Nat.leb n 13) || Nat.eqb n 32.

Fixpoint trim_start (s : string) : string :=
  match s with
  | EmptyString => EmptyString
  | String c r => if is_ws c then trim_start r else s
  end.

Definition rev_string (s : string) : string :=
  string_of_list_ascii (rev (list_ascii_of_string s)).

(** [str::trim] *)
Definition trim (s : string) : string :=
  rev_string (trim_start (rev_string (trim_start s))).

Definition digit_val (c : ascii) : option N :=
  let n := nat_of_ascii c in
  if Nat.leb 48 n && Nat.leb n 57 then Some (N.of_nat (n - 48)) else None.

Fixpoint parse_digits (s : string) (acc : N) : option N :=
  match s with
  | EmptyString => Some acc
  | String c r =>
      match digit_val c with
      | Some d =>
          let acc' := (acc * 10 + d)%N in
          if (acc' <? 2 ^ 64)%N then parse_digits r acc' else None
      | None => None
      end
  end.

(** [<u64 as FromStr>::from_str]: an optional leading [+] (not alone),
    then decimal digits, no overflow; no white space is skipped. *)
Definition parse_u64 (s : string) : option N :=
  match s with
  | EmptyString => None
  | String c r =>
      if Ascii.eqb c "+"%char then
        match r with EmptyString => None | _ => parse_digits r 0 end
      else parse_digits s 0
  end.

(** [format!("hash = '{}'", s)] *)
Definition hash_predicate (s : string) : string := "hash = '" ++ s ++ "'".

(** ** Media resolution: the [get_media] closure of [do_info] *)

Section Resolver.
Context {E : Type} `{Library E}.

(** What the closure returns (its media vector), or a panic. *)
Inductive Resolved := Found (ms : list Media) | Panicked.

(** [v.iter().map(|id| lib.get_media(id).unwrap())] over a vector of ids. *)
Fixpoint get_all (lib : E) (ids : list N) : Resolved :=
  match ids with
  | [] => Found []
  | i :: rest =>
      match get_media lib i, get_all lib rest with
      | Ok m, Found ms => Found (m :: ms)
      | _, _ => Panicked
      end
  end.

(** "first try ID": [query_string.parse()] then [lib.get_media(v)]. *)
Definition id_attempt (lib : E) (query_string : string) : option Media :=
  match parse_u64 query_string with
  | Some v => match get_media lib v with Ok m => Some m | Err _ => None end
  | None => None
  end.

(** "then try Hash": [None] when the closure goes on to the file name. *)
Definition hash_attempt (lib : E) (t : string) : option Resolved :=
  if Nat.eqb (String.length t) (get_hash_size lib * 2) then
    match query_media lib (hash_predicate t) with
    | Ok ids =>
        Some (match ids with
              | i :: _ =>
                  match get_media lib i with
                  | Ok m => Found [m]
                  | Err _ => Panicked
                  end
              | [] => Panicked (* [first().unwrap()] on an empty vector *)
              end)
    | Err _ => None
    end
  else None.

(** "last try file name" *)
Definition filename_attempt (lib : E) (t : string) : Resolved :=
  match get_media_by_filename lib t with
  | Ok v => get_all lib v
  | Err _ => Found []
  end.

Definition get_media_closure (lib : E) (query_string : string) : Resolved :=
  match id_attempt lib query_string with
  | Some m => Found [m]
  | None =>
      match hash_attempt lib (trim query_string) with
      | Some r => r
      | None => filename_attempt lib (trim query_string)
      end
  end.

End Resolver.

(** ** Manifest files: [parse_input_file] *)

Definition strip_cr (s : string) : string :=
  match rev (list_ascii_of_string s) with
  | c :: r => if Ascii.eqb c "013"%char then string_of_list_ascii (rev r) else s
  | [] => s
  end.

(** [str::lines]: split at ["\n"], drop one ["\r"] before it, and no empty
    last line after a final newline. *)
Fixpoint lines_from (s : string) (cur : string) : list string :=
  match s with
  | EmptyString => match cur with EmptyString => [] | _ => [cur] end
  | String c r =>
      if Ascii.eqb c "010"%char then strip_cr cur :: lines_from r EmptyString
      else lines_from r (cur ++ String c EmptyString)
  end.

Definition lines (s : string) : list string := lines_from s EmptyString.

(** The closure mapped over the lines: [&v[0..7]] panics ([None]) on a line
    of fewer than 7 bytes, and so does [Url::parse(v).unwrap()] on a
    malformed URL. *)
Definition parse_line `{Host} (v : string) : option string :=
  if Nat.ltb (String.length v) 7 then None
  else if String.eqb (substring 0 7 v) "file://" then url_path v
  else Some v.

Fixpoint map_or_panic {A B} (f : A -> option B) (l : list A) : option (list B) :=
  match l with
  | [] => Some []
  | x :: r =>
      match f x with
      | Some y => match map_or_panic f r with Some ys => Some (y :: ys) | None => None end
      | None => None
      end
  end.

Fixpoint join (sep : string) (l : list string) : string :=
  match l with
  | [] => ""
  | [x] => x
  | x :: r => x ++ sep ++ join sep r
  end.

(** Outcome of a computation of [do_add]: a value, an error returned with
    [?] ([Box<dyn Error>], here its message), or a panic. *)
Inductive Status (A : Type) :=
| Ret (a : A)
| Fail (e : string)
| Panic.
Arguments Ret {A} a.
Arguments Fail {A} e.
Arguments Panic {A}.

Definition parse_input_file `{Host} (input : string) : Status (list string) :=
  match read_to_string input with
  | Err e => Fail e
  | Ok text =>
      match map_or_panic parse_line (lines text) with
      | None => Panic
      | Some ls =>
          let not_exists := filter (fun v => negb (is_file v)) ls in
          match not_exists with
          | [] => Ret ls
          | _ => Fail (join "," not_exists ++ " are not existed or not a file.")
          end
      end
  end.

(** ** The [do_add] command *)

(** The options of [Add] (src/main.rs) read by [do_add]. *)
Record Add := mkAdd {
  comment : option string;
  title : option string;
  _type : option MediaType;
  file : list string;
  input : option string;
  series : option Uuid;
  new_series : option string;
  sorted : bool
}.

(** Engine calls that change the library, and the lines printed. *)
Inductive Event :=
| EvAddMedia (path : string) (k : MediaType) (t c : option string)
| EvQueryMedia (q : string)
| EvCreateSeries (name : string) (c : option string)
| EvAddToSeries (i : N) (uuid : Uuid) (pos : option N) (default_order : bool)
| MsgAdded (path : string) (i : N) (k : MediaType)
| MsgExisting (name : string) (i : N) (k : MediaType)
| MsgQueryError (h : string) (e : LibError)
| MsgAddError (e : LibError)
| MsgSortedSkipped
| MsgBound (count : nat) (uuid : Uuid).

Section Add.
Context {E : Type} `{Library E} `{Host} `{Prompt E}.

Record St := mkSt { eng : E; log : list Event }.

Definition M (A : Type) := St -> Status A * St.

Definition ret {A} (a : A) : M A := fun s => (Ret a, s).

Definition bind {A B} (m : M A) (k : A -> M B) : M B :=
  fun s => match m s with
           | (Ret a, s') => k a s'
           | (Fail e, s') => (Fail e, s')
           | (Panic, s') => (Panic, s')
           end.

Local Notation "x <- m ;; k" := (bind m (fun x => k))
  (at level 61, m at next level, right associativity).
Local Notation "m ;;; k" := (bind m (fun _ => k))
  (at level 61, right associativity).

Definition emit (ev : Event) : M unit :=
  fun s => (Ret tt, mkSt (eng s) (log s ++ [ev])).

Definition engine : M E := fun s => (Ret (eng s), s).

Definition set_engine (e : E) : M unit := fun s => (Ret tt, mkSt e (log s)).

Definition panic {A} : M A := fun s => (Panic, s).

Definition lift {A} (r : Status A) : M A := fun s => (r, s).

Definition lib_error_msg (e : LibError) : string :=
  match e with AlreadyExists s => "AlreadyExists: " ++ s | OtherError m => m end.

(** [e?] on a [shiromana_rs] result. *)
Definition try_lib {A} (r : result A LibError) : M A :=
  match r with Ok a => ret a | Err e => lift (Fail (lib_error_msg e)) end.

(** The MIME-based fallback of [add_one_media]. *)
Definition before_slash (s : string) : string :=
  match index 0 "/" s with Some n => substring 0 n s | None => s end.

Definition kind_of_mime (top : string) : MediaType :=
  if String.eqb top "image" then Image
  else if String.eqb top "audio" then Audio
  else if String.eqb top "video" then Video
  else if String.eqb top "text" then Text
  else Other.

Definition classify (f : string) (k : option MediaType) : MediaType :=
  match k with
  | Some k => k
  | None => kind_of_mime (before_slash (tree_magic f))
  end.

(** [add_one_media]; the success line shows the file name of [f]. *)
Definition add_one_media (f : string) (k : option MediaType)
    (t c : option string) : M (result N LibError) :=
  let k := classify f k in
  lib <- engine ;;
  let '(r, lib') := add_media lib f k t c in
  set_engine lib' ;;;
  emit (EvAddMedia f k t c) ;;;
  match r with
  | Ok i => emit (MsgAdded f i k) ;;; ret (Ok i)
  | Err e => ret (Err e)
  end.

(** The closure mapped over [files] in [do_add]: [None] is a failed file. *)
Definition ingest_one (opt : Add) (t c : option string) (f : string) : M (option N) :=
  r <- add_one_media f (_type opt) t c ;;
  match r with
  | Ok i => ret (Some i)
  | Err (AlreadyExists s) =>
      lib <- engine ;;
      emit (EvQueryMedia (hash_predicate s)) ;;;
      ids <- match query_media lib (hash_predicate s) with
             | Ok v => ret v
             | Err v => emit (MsgQueryError s v) ;;; ret []
             end ;;
      match ids with
      | i :: _ =>
          match get_media lib i with
          | Ok m => emit (MsgExisting (filename m) i (kind m)) ;;; ret (Some i)
          | Err _ => panic
          end
      | [] => ret None
      end
  | Err e => emit (MsgAddError e) ;;; ret None
  end.

Fixpoint ingest (opt : Add) (t c : option string) (files : list string)
    : M (list (option N)) :=
  match files with
  | [] => ret []
  | f :: rest =>
      o <- ingest_one opt t c f ;;
      os <- ingest opt t c rest ;;
      ret (o :: os)
  end.

(** The target series: [opt.series], or [create_series] under
    [opt.new_series] (or the prompted name when that one is taken). *)
Definition resolve_series (opt : Add) : M (option Uuid) :=
  match series opt with
  | Some uuid => ret (Some uuid)
  | None =>
      match new_series opt with
      | Some name =>
          lib <- engine ;;
          nm <- (if is_ok (get_series_by_name lib name) then
                   match prompt_series_name lib with
                   | Ok r => ret r
                   | Err e => lift (Fail e)
                   end
                 else ret name) ;;
          lib <- engine ;;
          let '(r, lib') := create_series lib nm None in
          set_engine lib' ;;;
          emit (EvCreateSeries nm None) ;;;
          u <- try_lib r ;;
          ret (Some u)
      | None => ret None
      end
  end.

(** [for (i, id) in ids.iter().enumerate()]: [i] is unused. *)
Fixpoint add_all (uuid : Uuid) (srt : bool) (ids : list (option N)) : M unit :=
  match ids with
  | [] => ret tt
  | id :: rest =>
      i <- (match id with Some i => ret i | None => panic end) ;;
      lib <- engine ;;
      let '(r, lib') := add_to_series lib i uuid None (negb srt) in
      set_engine lib' ;;;
      emit (EvAddToSeries i uuid None (negb srt)) ;;;
      try_lib r ;;;
      add_all uuid srt rest
  end.

Definition is_some_b {A} (o : option A) : bool :=
  match o with Some _ => true | None => false end.

(** Lines 382-429 of [do_add]. *)
Definition series_binder (opt : Add) (ids : list (option N)) : M unit :=
  if sorted opt && existsb (fun v => negb (is_some_b v)) ids then
    emit MsgSortedSkipped
  else
    srs <- resolve_series opt ;;
    match srs with
    | Some uuid =>
        let ids := filter is_some_b ids in
        add_all uuid (sorted opt) ids ;;;
        emit (MsgBound (length ids) uuid)
    | None => ret tt
    end.

Definition do_add (opt : Add) : M unit :=
  files <- (match input opt with
            | Some inp => lift (parse_input_file inp)
            | None => ret (file opt)
            end) ;;
  let '(t, c) := if Nat.eqb (length files) 1 then (title opt, comment opt)
                 else (None, None) in
  ids <- ingest opt t c files ;;
  series_binder opt ids.

End Add.

(** ** A small in-memory library and host, for concrete runs *)

Module Demo.

Record Lib := mkLib {
  d_media : list Media;
  d_series : list (string * Uuid);
  (** content hash of each readable file *)
  d_content : list (string * string);
  d_hash_size : nat;
  d_query_ok : bool;
  d_series_ok : bool
}.

Definition with_media (l : Lib) (ms : list Media) : Lib :=
  mkLib ms (d_series l) (d_content l) (d_hash_size l) (d_query_ok l) (d_series_ok l).

Definition with_series (l : Lib) (ss : list (string * Uuid)) : Lib :=
  mkLib (d_media l) ss (d_content l) (d_hash_size l) (d_query_ok l) (d_series_ok l).

Fixpoint assoc (k : string) (l : list (string * string)) : option string :=
  match l with
  | [] => None
  | (k', v) :: r => if String.eqb k k' then Some v else assoc k r
  end.

Definition find_media (l : Lib) (i : N) : result Media LibError :=
  match find (fun m => N.eqb (id m) i) (d_media l) with
  | Some m => Ok m
  | None => Err (OtherError "not found")
  end.

#[export] Instance lib : Library Lib := {
  add_media l path k _ _ :=
    match assoc path (d_content l) with
    | None => (Err (OtherError "cannot read"), l)
    | Some h =>
        if existsb (fun m => String.eqb (hash m) h) (d_media l)
        then (Err (AlreadyExists h), l)
        else let i := N.of_nat (S (length (d_media l))) in
             (Ok i, with_media l (d_media l ++ [mkMedia i h path k]))
    end;
  get_media := find_media;
  query_media l q :=
    if d_query_ok l then
      Ok (map id (filter (fun m => String.eqb (hash_predicate (hash m)) q) (d_media l)))
    else Err (OtherError "db");
  get_media_by_filename l n :=
    Ok (map id (filter (fun m => String.eqb (filename m) n) (d_media l)));
  get_hash_size := d_hash_size;
  create_series l name _ :=
    let u := "uuid:" ++ name in (Ok u, with_series l ((name, u) :: d_series l));
  get_series_by_name l name :=
    match assoc name (d_series l) with
    | Some u => Ok u
    | None => Err (OtherError "no series")
    end;
  add_to_series l _ _ _ _ :=
    if d_series_ok l then (Ok tt, l) else (Err (OtherError "db"), l)
}.

Definition files : list string := ["a.png"; "b.png"].

#[export] Instance host : Host := {
  read_to_string p :=
    if String.eqb p "list.txt" then Ok "a.png
" else Err "No such file";
  is_file p := existsb (String.eqb p) files;
  url_path v := Some (substring 7 (String.length v - 7) v);
  tree_magic _ := "image/png"
}.

#[export] Instance prompt : Prompt Lib := {
  prompt_series_name _ := Ok "fresh"
}.

Definition m1 : Media := mkMedia 1 "zz" "ab" Image.
Definition m42 : Media := mkMedia 42 "h42" "x.png" Image.

Definition add_opt (srt : bool) (srs : option Uuid) (ns : option string) : Add :=
  mkAdd None None None [] None srs ns srt.

End Demo.

Import Demo.

Example parse_u64_ex1 : parse_u64 "42" = Some 42%N. Proof. reflexivity. Qed.
Example parse_u64_ex2 : parse_u64 " 42 " = None. Proof. reflexivity. Qed.
Example parse_u64_ex3 : parse_u64 "+7" = Some 7%N. Proof. reflexivity. Qed.
Example parse_u64_ex4 : parse_u64 "18446744073709551616" = None. Proof. reflexivity. Qed.
Example trim_ex : trim " 42 
" = "42". Proof. reflexivity. Qed.
Example lines_ex : lines "a
b
c
" = ["a"; "b"; "c"]. Proof. reflexivity. Qed.

(** ** Media resolution *)

Section ResolverFacts.
Context {E : Type} `{Library E}.

(** When the untrimmed query parses as an id and the engine holds that id,
    the closure returns exactly that record, whatever the other attempts
    would find. *)
Lemma id_attempt_wins (lib : E) (q : string) (v : N) (m : Media) :
  parse_u64 q = Some v -> get_media lib v = Ok m ->
  get_media_closure lib q = Found [m].
Proof.
  intros Hp Hg. unfold get_media_closure, id_attempt. now rewrite Hp, Hg.
Qed.

End ResolverFacts.

(** A library whose hashes are 1 byte (2 hex digits) and holding one
    record [m1] named ["ab"]. *)
Definition lib_ab : Lib := mkLib [m1] [] [] 1 true true.

(** C1: the chain does not fall through to the file-name attempt when the
    hash attempt finds no record: on ["ab"], which is no id and has hash
    length, the hash query succeeds with no id and [first().unwrap()]
    panics, although the file-name attempt would return [m1]. *)
Theorem resolver_chain_panics_on_empty_hash_match :
  get_media_closure lib_ab "ab" = Panicked /\
  id_attempt lib_ab "ab" = None /\
  filename_attempt lib_ab (trim "ab") = Found [m1].
Proof. repeat split; reflexivity. Qed.

(** A library with 2-byte hashes holding one record [m1] named ["ab"]. *)
Definition lib_hash2 : Lib := mkLib [m1] [] [] 2 true true.

(** C3: for a query of exactly twice the hash size whose hash query
    succeeds with zero matches, the closure panics instead of going on to
    the file-name attempt. *)
Theorem hash_attempt_zero_matches_panics :
  String.length (trim " abcd ") = get_hash_size lib_hash2 * 2 /\
  id_attempt lib_hash2 " abcd " = None /\
  query_media lib_hash2 (hash_predicate "abcd") = Ok [] /\
  get_media_closure lib_hash2 " abcd " = Panicked.
Proof. repeat split; reflexivity. Qed.

(** A library with 32-byte hashes holding record 42, named ["x.png"]. *)
Definition lib_42 : Lib := mkLib [m42] [] [] 32 true true.

(** C7: the id attempt parses the untrimmed query: [" 42 "] does not parse
    as a [u64], so record 42 is not returned and the file-name attempt for
    ["42"] finds nothing. *)
Theorem id_attempt_untrimmed :
  get_media lib_42 42 = Ok m42 /\
  parse_u64 (trim " 42 ") = Some 42%N /\
  get_media_closure lib_42 " 42 " = Found [].
Proof. repeat split; reflexivity. Qed.

(** ** Manifest files *)

(** C6: a manifest line shorter than ["file://"] panics at [&v[0..7]]:
    the manifest ["a.png\n"] names an existing file, yet no path list is
    produced. *)
Theorem parse_input_file_short_line_panics :
  read_to_string "list.txt" = Ok "a.png
" /\
  is_file "a.png" = true /\
  parse_input_file "list.txt" = Panic.
Proof. repeat split; reflexivity. Qed.

(** ** Series binding *)

Definition st0 (l : Lib) : St := mkSt l [].

(** C2: with [sorted = true] and no failed file, each [add_to_series] call
    passes no position ([None]) and asks for non-default ordering
    ([false]); the enumeration index is never passed. *)
Theorem sorted_binding_passes_no_position :
  series_binder (add_opt true (Some "u") None) [Some 1%N; Some 2%N] (st0 lib_ab)
  = (Ret tt, mkSt lib_ab
       [EvAddToSeries 1 "u" None false; EvAddToSeries 2 "u" None false;
        MsgBound 2 "u"]).
Proof. reflexivity. Qed.

(** ** General properties of ingestion and series binding *)

Section AddFacts.
Context {E : Type} `{Library E} `{Host} `{Prompt E}.
Local Open Scope list_scope.

(** Unfold the monad operations of [do_add]. *)
Ltac unfold_m :=
  cbv beta iota delta [bind ret engine set_engine emit try_lib lift panic] in *.

(** The identifiers of the non-failed outcomes, in order. *)
Fixpoint somes (l : list (option N)) : list N :=
  match l with
  | [] => []
  | Some i :: r => i :: somes r
  | None :: r => somes r
  end.

(** The paths passed to [add_media], in call order. *)
Definition added_paths (l : list Event) : list string :=
  flat_map (fun ev => match ev with EvAddMedia p _ _ _ => [p] | _ => [] end) l.

(** The [add_to_series] calls, in call order. *)
Definition series_calls (l : list Event) : list (N * Uuid * option N * bool) :=
  flat_map (fun ev => match ev with
                      | EvAddToSeries i u p d => [(i, u, p, d)]
                      | _ => [] end) l.

(** Ids returned by the engine's own queries name stored records. *)
Definition engine_consistent : Prop :=
  forall (lib : E) q ids i, query_media lib q = Ok ids -> In i ids ->
  exists m, get_media lib i = Ok m.

(** The name given to [create_series] under [opt.new_series = Some name]:
    [name] itself when no series has it, else the prompted one. *)
Definition chosen_name (lib : E) (name nm : string) : Prop :=
  (is_ok (get_series_by_name lib name) = false /\ nm = name) \/
  (is_ok (get_series_by_name lib name) = true /\ prompt_series_name lib = Ok nm).

Lemma somes_filter (l : list (option N)) : somes (filter is_some_b l) = somes l.
Proof. induction l as [|[i|] l IH]; simpl; congruence. Qed.

Lemma filter_is_some_length (l : list (option N)) :
  length (filter is_some_b l) = length (somes l).
Proof. induction l as [|[i|] l IH]; simpl; congruence. Qed.

Lemma filter_is_some_all (l : list (option N)) :
  Forall (fun o => is_some_b o = true) (filter is_some_b l).
Proof.
  apply Forall_forall. intros x Hx. now apply filter_In in Hx.
Qed.

Lemma filter_all_none (l : list (option N)) :
  Forall (fun o => o = None) l -> filter is_some_b l = [].
Proof. induction 1 as [|x l Hx _ IH]; subst; simpl; auto. Qed.

(** [add_all] over present ids: when it finishes, it has made one call per
    id, in order. *)
Lemma add_all_log (u : Uuid) (srt : bool) (ids : list (option N)) (s s' : St) :
  Forall (fun o => is_some_b o = true) ids ->
  add_all u srt ids s = (Ret tt, s') ->
  log s' = log s ++ map (fun i => EvAddToSeries i u None (negb srt)) (somes ids).
Proof.
  revert s. induction ids as [|o ids IH]; intros s Hall Hrun.
  - simpl in Hrun. inversion Hrun; subst. now rewrite app_nil_r.
  - apply Forall_cons_iff in Hall as [Ho Hrest].
    destruct o as [i|]; [|discriminate Ho].
    simpl in Hrun. unfold_m. revert Hrun.
    destruct (add_to_series (eng s) i u None (negb srt)) as [r e'] eqn:Ha.
    destruct r as [[]|e]; simpl; intros Hrun; [|discriminate Hrun].
    apply IH in Hrun; [|exact Hrest]. rewrite Hrun. simpl.
    now rewrite <- app_assoc.
Qed.

Lemma add_all_none (u : Uuid) (srt : bool) (s : St) :
  add_all u srt [] s = (Ret tt, s).
Proof. reflexivity. Qed.

(** Claim C4: with [sorted = true] and some failed file, series binding
    only prints the warning: the engine is untouched (no [create_series],
    no [add_to_series]), and the step ends with [Ok(())]. *)
Theorem sorted_binding_skipped_on_failure (opt : Add) (ids : list (option N)) (s : St) :
  sorted opt = true -> In None ids ->
  series_binder opt ids s = (Ret tt, mkSt (eng s) (log s ++ [MsgSortedSkipped])).
Proof.
  intros Hs Hin. unfold series_binder. rewrite Hs.
  assert (Hex : existsb (fun v => negb (is_some_b v)) ids = true).
  { apply existsb_exists. now exists None. }
  rewrite Hex. reflexivity.
Qed.

(** Claim C8 (amended): with [sorted = false] and a resolved target series,
    when binding finishes without an [add_to_series] error, one call is made
    per non-failed outcome, in input order, with no position and the
    default ordering, and the reported count is their number. *)
Theorem unsorted_binding_calls (opt : Add) (ids : list (option N)) (u : Uuid)
    (s s1 s2 : St) :
  sorted opt = false ->
  resolve_series opt s = (Ret (Some u), s1) ->
  series_binder opt ids s = (Ret tt, s2) ->
  log s2 = log s1 ++ map (fun i => EvAddToSeries i u None true) (somes ids)
                  ++ [MsgBound (length (somes ids)) u].
Proof.
  intros Hs Hr Hrun. unfold series_binder in Hrun. rewrite Hs in Hrun.
  simpl in Hrun. unfold bind at 1 in Hrun. rewrite Hr in Hrun.
  unfold bind in Hrun.
  destruct (add_all u false (filter is_some_b ids) s1) as [r s3] eqn:Ha.
  destruct r as [[]| |]; try discriminate Hrun.
  unfold emit in Hrun. inversion Hrun; subst; clear Hrun. simpl.
  apply add_all_log in Ha; [|apply filter_is_some_all].
  rewrite Ha, somes_filter, filter_is_some_length. simpl.
  now rewrite <- app_assoc.
Qed.

Lemma unsorted_binding_calls_count (opt : Add) (ids : list (option N)) (u : Uuid)
    (s s1 s2 : St) :
  sorted opt = false ->
  resolve_series opt s = (Ret (Some u), s1) ->
  series_binder opt ids s = (Ret tt, s2) ->
  series_calls (log s2) = series_calls (log s1) ++ map (fun i => (i, u, None, true)) (somes ids).
Proof.
  intros Hs Hr Hrun. rewrite (unsorted_binding_calls opt ids u s s1 s2 Hs Hr Hrun).
  unfold series_calls. rewrite !flat_map_app. simpl. rewrite app_nil_r.
  f_equal. induction (somes ids) as [|i l IH]; simpl; congruence.
Qed.

(** Claim C10: with [sorted = false], intent [new_series = Some name] and
    every outcome failed, [create_series] is still called (under [name], or
    the prompted name when [name] is taken); when it succeeds no
    [add_to_series] follows and a bound count of 0 is reported for the new
    series. *)
Theorem new_series_created_when_all_failed (opt : Add) (ids : list (option N))
    (name nm : string) (s : St) :
  sorted opt = false -> series opt = None -> new_series opt = Some name ->
  Forall (fun o => o = None) ids ->
  chosen_name (eng s) name nm ->
  series_binder opt ids s =
    let '(r, e') := create_series (eng s) nm None in
    match r with
    | Ok u => (Ret tt, mkSt e' (log s ++ [EvCreateSeries nm None; MsgBound 0 u]))
    | Err err => (Fail (lib_error_msg err), mkSt e' (log s ++ [EvCreateSeries nm None]))
    end.
Proof.
  intros Hs Hser Hnew Hnone Hname.
  unfold series_binder, resolve_series. rewrite Hs, Hser, Hnew.
  rewrite (filter_all_none ids Hnone). simpl. unfold_m.
  destruct Hname as [[Hg Heq] | [Hg Hp]]; rewrite Hg; [rewrite <- Heq | rewrite Hp];
  destruct (create_series (eng s) nm None) as [[u|err] e'];
  simpl; rewrite <- ?app_assoc; reflexivity.
Qed.

(** Claim C5: after [add_media] fails with [AlreadyExists(h)], the engine is
    queried with [hash = 'h']; a single match [i] gives outcome [Some i] and
    the "Existed Media Found" notice; a failing query is reported and gives
    outcome [None]. *)
Theorem already_exists_recovery (opt : Add) (t c : option string) (f h : string)
    (e1 : E) (s : St) :
  add_media (eng s) f (classify f (_type opt)) t c = (Err (AlreadyExists h), e1) ->
  (forall i m, query_media e1 (hash_predicate h) = Ok [i] -> get_media e1 i = Ok m ->
     ingest_one opt t c f s =
       (Ret (Some i), mkSt e1 (log s ++ [EvAddMedia f (classify f (_type opt)) t c;
                                        EvQueryMedia (hash_predicate h);
                                        MsgExisting (filename m) i (kind m)]))) /\
  (forall err, query_media e1 (hash_predicate h) = Err err ->
     ingest_one opt t c f s =
       (Ret None, mkSt e1 (log s ++ [EvAddMedia f (classify f (_type opt)) t c;
                                    EvQueryMedia (hash_predicate h);
                                    MsgQueryError h err]))).
Proof.
  intros Hadd. unfold ingest_one, add_one_media. unfold_m. rewrite Hadd. simpl.
  split.
  - intros i m Hq Hg. rewrite Hq. simpl. rewrite Hg. simpl.
    now rewrite <- !app_assoc.
  - intros err Hq. rewrite Hq. simpl. now rewrite <- !app_assoc.
Qed.

Lemma added_paths_app (l1 l2 : list Event) :
  added_paths (l1 ++ l2) = added_paths l1 ++ added_paths l2.
Proof. apply flat_map_app. Qed.

Ltac finish_paths :=
  cbn [log eng]; rewrite ?added_paths_app; simpl; rewrite ?app_nil_r, <- ?app_assoc; reflexivity.

(** Each file is processed to an outcome: [ingest_one] never fails nor
    panics on a consistent engine, and calls [add_media] once, on [f]. *)
Lemma ingest_one_total (Hc : engine_consistent) (opt : Add) (t c : option string)
    (f : string) (s : St) :
  exists o s', ingest_one opt t c f s = (Ret o, s') /\
               added_paths (log s') = added_paths (log s) ++ [f].
Proof.
  unfold ingest_one, add_one_media. unfold_m.
  destruct (add_media (eng s) f (classify f (_type opt)) t c) as [[i|[h|msg]] e1].
  - simpl. eexists _, _. split; [reflexivity|].
    finish_paths.
  - simpl. destruct (query_media e1 (hash_predicate h)) as [ids|err] eqn:Hq.
    + destruct ids as [|i rest].
      * simpl. eexists _, _. split; [reflexivity|].
        finish_paths.
      * destruct (Hc e1 _ _ i Hq (or_introl eq_refl)) as [m Hm].
        simpl. rewrite Hm. simpl. eexists _, _. split; [reflexivity|].
        finish_paths.
    + simpl. eexists _, _. split; [reflexivity|].
      finish_paths.
  - simpl. eexists _, _. split; [reflexivity|].
    finish_paths.
Qed.

(** Claim C9: on a consistent engine, ingestion always completes the whole
    batch: it returns one outcome per file, and [add_media] is called on
    every file, in input order, whatever the registrations return. *)
Theorem ingest_complete (Hc : engine_consistent) (opt : Add) (t c : option string)
    (files : list string) (s : St) :
  exists ids s', ingest opt t c files s = (Ret ids, s') /\
                 length ids = length files /\
                 added_paths (log s') = added_paths (log s) ++ files.
Proof.
  revert s. induction files as [|f files IH]; intros s.
  - exists [], s. simpl. now rewrite app_nil_r.
  - destruct (ingest_one_total Hc opt t c f s) as (o & s1 & Ho & Hp1).
    destruct (IH s1) as (os & s2 & Hos & Hlen & Hp2).
    exists (o :: os), s2. simpl. unfold bind at 1. rewrite Ho.
    unfold bind. rewrite Hos. repeat split.
    + simpl. now rewrite Hlen.
    + rewrite Hp2, Hp1. now rewrite <- app_assoc.
Qed.

End AddFacts.

(** ** Concrete runs *)

Open Scope list_scope.

Lemma demo_consistent : @engine_consistent Lib lib.
Proof.
  intros l q ids i Hq Hin. simpl in Hq.
  destruct (d_query_ok l); inversion Hq as [Hids]; subst; clear Hq.
  apply in_map_iff in Hin as [m [Hid Hm]]. apply filter_In in Hm as [Hm _].
  simpl. unfold find_media.
  destruct (find (fun m0 => N.eqb (id m0) i) (d_media l)) as [m'|] eqn:Hf.
  - now exists m'.
  - exfalso. apply (find_none _ _ Hf) in Hm. subst i. now rewrite N.eqb_refl in Hm.
Qed.

Definition opt_sorted_new : Add := add_opt true None (Some "s").

Lemma sorted_binding_skipped_on_failure_witness :
  sorted opt_sorted_new = true /\ In None [Some 1%N; None] /\
  series_binder opt_sorted_new [Some 1%N; None] (st0 lib_ab)
  = (Ret tt, mkSt lib_ab [MsgSortedSkipped]).
Proof.
  split; [reflexivity|]. split; [simpl; auto|].
  apply (sorted_binding_skipped_on_failure opt_sorted_new [Some 1%N; None] (st0 lib_ab));
    [reflexivity | simpl; auto].
Defined.

(** The library of [lib_ab] whose [add_to_series] always fails. *)
Definition lib_series_fail : Lib := mkLib [m1] [] [] 1 true false.

Definition opt_unsorted_u : Add := add_opt false (Some "u") None.

(** Claim C8 fails as stated: when [add_to_series] errs, [?] stops the loop
    after the first call, though two outcomes are not failed, and no count
    is reported. *)
Lemma unsorted_binding_stops_on_error :
  series_binder opt_unsorted_u [Some 1%N; None; Some 2%N] (st0 lib_series_fail)
  = (Fail "db", mkSt lib_series_fail [EvAddToSeries 1 "u" None true]) /\
  length (somes [Some 1%N; None; Some 2%N]) = 2.
Proof. split; reflexivity. Qed.

Lemma unsorted_binding_calls_witness :
  sorted opt_unsorted_u = false /\
  resolve_series opt_unsorted_u (st0 lib_ab) = (Ret (Some "u"), st0 lib_ab) /\
  series_binder opt_unsorted_u [Some 1%N; None; Some 2%N] (st0 lib_ab)
  = (Ret tt, mkSt lib_ab [EvAddToSeries 1 "u" None true;
                          EvAddToSeries 2 "u" None true; MsgBound 2 "u"]) /\
  [EvAddToSeries 1 "u" None true; EvAddToSeries 2 "u" None true; MsgBound 2 "u"]
  = [] ++ map (fun i => EvAddToSeries i "u" None true) (somes [Some 1%N; None; Some 2%N])
       ++ [MsgBound (length (somes [Some 1%N; None; Some 2%N])) "u"].
Proof.
  split; [reflexivity|]. split; [reflexivity|]. split; [reflexivity|].
  apply (unsorted_binding_calls opt_unsorted_u [Some 1%N; None; Some 2%N] "u"
           (st0 lib_ab) (st0 lib_ab)
           (mkSt lib_ab [EvAddToSeries 1 "u" None true;
                         EvAddToSeries 2 "u" None true; MsgBound 2 "u"]));
    reflexivity.
Defined.

Definition opt_unsorted_new : Add := add_opt false None (Some "s").

Lemma new_series_created_when_all_failed_witness :
  chosen_name lib_ab "s" "s" /\
  series_binder opt_unsorted_new [None; None] (st0 lib_ab)
  = (Ret tt, mkSt (with_series lib_ab [("s", "uuid:s")])
                  [EvCreateSeries "s" None; MsgBound 0 "uuid:s"]).
Proof.
  split; [left; split; reflexivity|].
  rewrite (new_series_created_when_all_failed opt_unsorted_new [None; None] "s" "s"
             (st0 lib_ab) eq_refl eq_refl eq_refl
             (Forall_cons _ eq_refl (Forall_cons _ eq_refl (Forall_nil _)))
             ltac:(left; split; reflexivity)).
  reflexivity.
Defined.

(** A library holding [m1] (content hash ["zz"]) where file ["c.png"] has
    the same content; in [lib_dup_qfail] the engine's queries fail. *)
Definition lib_dup : Lib := mkLib [m1] [] [("c.png", "zz")] 1 true true.
Definition lib_dup_qfail : Lib := mkLib [m1] [] [("c.png", "zz")] 1 false true.

Definition opt_plain : Add := add_opt false None None.

Lemma already_exists_recovery_witness :
  add_media lib_dup "c.png" Image None None = (Err (AlreadyExists "zz"), lib_dup) /\
  ingest_one opt_plain None None "c.png" (st0 lib_dup)
  = (Ret (Some 1%N), mkSt lib_dup [EvAddMedia "c.png" Image None None;
                                   EvQueryMedia (hash_predicate "zz");
                                   MsgExisting "ab" 1 Image]) /\
  ingest_one opt_plain None None "c.png" (st0 lib_dup_qfail)
  = (Ret None, mkSt lib_dup_qfail [EvAddMedia "c.png" Image None None;
                                   EvQueryMedia (hash_predicate "zz");
                                   MsgQueryError "zz" (OtherError "db")]).
Proof.
  split; [reflexivity|]. split.
  - refine (proj1 (already_exists_recovery opt_plain None None "c.png" "zz" lib_dup
                     (st0 lib_dup) _) 1%N m1 _ _); reflexivity.
  - refine (proj2 (already_exists_recovery opt_plain None None "c.png" "zz" lib_dup_qfail
                     (st0 lib_dup_qfail) _) (OtherError "db") _); reflexivity.
Defined.

Lemma ingest_complete_witness :
  engine_consistent /\
  exists ids s', ingest opt_plain None None ["c.png"; "a.png"; "c.png"] (st0 lib_dup)
                 = (Ret ids, s') /\
                 length ids = 3 /\
                 added_paths (log s') = added_paths [] ++ ["c.png"; "a.png"; "c.png"].
Proof.
  split; [exact demo_consistent|].
  apply (ingest_complete demo_consistent opt_plain None None
           ["c.png"; "a.png"; "c.png"] (st0 lib_dup)).
Defined.

Example ingest_dup_run :
  ingest opt_plain None None ["c.png"; "a.png"] (st0 lib_dup)
  = (Ret [Some 1%N; None],
     mkSt lib_dup [EvAddMedia "c.png" Image None None; EvQueryMedia (hash_predicate "zz");
                   MsgExisting "ab" 1 Image; EvAddMedia "a.png" Image None None;
                   MsgAddError (OtherError "cannot read")]).
Proof. reflexivity. Qed.

(** ** The other commands of src/main.rs and src/command.rs *)

Definition ascii_lower (c : ascii) : ascii :=
  let n := nat_of_ascii c in
  if Nat.leb 65 n && Nat.leb n 90 then ascii_of_nat (n + 32) else c.

Definition ascii_upper (c : ascii) : ascii :=
  let n := nat_of_ascii c in
  if Nat.leb 97 n && Nat.leb n 122 then ascii_of_nat (n - 32) else c.

Fixpoint map_string (f : ascii -> ascii) (s : string) : string :=
  match s with
  | EmptyString => EmptyString
  | String c r => String (f c) (map_string f r)
  end.

(** [str::to_ascii_lowercase] and [str::to_ascii_uppercase] *)
Definition to_ascii_lowercase (s : string) : string := map_string ascii_lower s.
Definition to_ascii_uppercase (s : string) : string := map_string ascii_upper s.

(** [CreateType] and its [FromStr] instance (src/main.rs). *)
Inductive CreateType := Series | Tag.

Definition create_type_from_str (s : string) : result CreateType string :=
  let l := to_ascii_lowercase s in
  if String.eqb l "series" then Ok Series
  else if String.eqb l "tag" then Ok Tag
  else if String.eqb l "s" then Ok Series
  else if String.eqb l "t" then Ok Tag
  else Err (s ++ " cannot be parsed into type annotation.")%string.

Definition ok_value {A B} (r : result A B) : option A :=
  match r with Ok a => Some a | Err _ => None end.

Module CreateCmd.
(** The options of [Create] (src/main.rs). *)
Record Create := mkCreate {
  _type : CreateType;
  title : string;
  comment : option string;
  uuid_only : bool
}.
End CreateCmd.

Module InfoCmd.
(** The options of [Info] (src/main.rs). *)
Record Info := mkInfo {
  media : option string;
  detail : bool
}.
End InfoCmd.

(** Lines printed by [do_create]. *)
Inductive CreateOut :=
| PrintUuid (u : Uuid)
| PrintCreated (t : string) (u : Uuid).

(** Lines printed by [do_info]: the library summary, one media, or the
    "Cannot acquire any media via:" line with the query. *)
Inductive InfoOut :=
| LibraryInfo
| PrintMedia (m : Media) (detailed : bool)
| NoMediaFor (query : string).

Section OtherCommands.
Context {E : Type} `{Library E}.

(** [do_create]: its result, the updated library and the printed lines. *)
Definition do_create (opt : CreateCmd.Create) (lib : E)
    : Status unit * E * list CreateOut :=
  let '(r, lib') := create_series lib (CreateCmd.title opt) (CreateCmd.comment opt) in
  match r with
  | Err e => (Fail (lib_error_msg e), lib', [])
  | Ok u =>
      (Ret tt, lib',
       [if CreateCmd.uuid_only opt then PrintUuid u
        else PrintCreated (CreateCmd.title opt) u])
  end.

(** [do_info]: its result and the printed lines ([print_library_info] and
    [print_media] as one line each). *)
Definition do_info (opt : InfoCmd.Info) (lib : E) : Status unit * list InfoOut :=
  match InfoCmd.media opt with
  | None => (Ret tt, [LibraryInfo])
  | Some v =>
      match get_media_closure lib v with
      | Panicked => (Panic, [])
      | Found [] => (Ret tt, [NoMediaFor v])
      | Found ms => (Ret tt, map (fun m => PrintMedia m (InfoCmd.detail opt)) ms)
      end
  end.

End OtherCommands.

(** A manifest line does not end in ["\r"]. *)
Definition ends_with_cr (s : string) : bool :=
  match rev (list_ascii_of_string s) with
  | c :: _ => Ascii.eqb c "013"%char
  | [] => false
  end.

Definition has_newline (s : string) : bool :=
  existsb (fun c => Ascii.eqb c "010"%char) (list_ascii_of_string s).

(** A manifest: each line followed by [sep] (["\n"] or ["\r\n"]). *)
Definition manifest_of (sep : string) (ls : list string) : string :=
  String.concat "" (map (fun l => (l ++ sep)%string) ls).

(** ** Properties of the manifest reader, the id parser and the classifier *)

Lemma append_empty_r (s : string) : (s ++ "")%string = s.
Proof. induction s as [|c s IH]; simpl; congruence. Qed.

Lemma append_assoc_s (a b c : string) : ((a ++ b) ++ c)%string = (a ++ (b ++ c))%string.
Proof. induction a as [|x a IH]; simpl; congruence. Qed.

Lemma list_ascii_app (a b : string) :
  list_ascii_of_string (a ++ b) = list_ascii_of_string a ++ list_ascii_of_string b.
Proof. induction a as [|x a IH]; simpl; congruence. Qed.

Lemma lines_from_line (l rest cur : string) :
  has_newline l = false ->
  lines_from (l ++ String "010"%char rest) cur = strip_cr (cur ++ l) :: lines_from rest "".
Proof.
  revert cur. induction l as [|x l IH]; intros cur Hn.
  - simpl. now rewrite append_empty_r.
  - unfold has_newline in Hn. simpl in Hn. apply orb_false_iff in Hn as [Hx Hn].
    simpl. rewrite Hx. rewrite IH by exact Hn.
    now rewrite append_assoc_s.
Qed.

Lemma strip_cr_plain (l : string) : ends_with_cr l = false -> strip_cr l = l.
Proof.
  unfold ends_with_cr, strip_cr. destruct (rev (list_ascii_of_string l)) as [|c r].
  - reflexivity.
  - intros Hc. now rewrite Hc.
Qed.

Lemma strip_cr_cr (l : string) : strip_cr (l ++ String "013"%char "") = l.
Proof.
  unfold strip_cr. rewrite list_ascii_app. simpl. rewrite rev_app_distr. simpl.
  rewrite rev_involutive. apply string_of_list_ascii_of_string.
Qed.

Lemma manifest_of_cons (sep l : string) (ls : list string) :
  manifest_of sep (l :: ls) = ((l ++ sep) ++ manifest_of sep ls)%string.
Proof.
  unfold manifest_of. destruct ls as [|l' ls]; simpl.
  - now rewrite append_empty_r.
  - reflexivity.
Qed.

Lemma lines_manifest_lf_gen (ls : list string) :
  Forall (fun l => has_newline l = false /\ ends_with_cr l = false) ls ->
  lines (manifest_of (String "010"%char "") ls) = ls.
Proof.
  induction 1 as [|l ls [Hn Hc] _ IH]; [reflexivity|].
  unfold lines in *. rewrite manifest_of_cons, append_assoc_s. simpl.
  rewrite lines_from_line by exact Hn. simpl. rewrite strip_cr_plain by exact Hc.
  now rewrite IH.
Qed.

(** [str::lines] reads back the lines of a manifest written with ["\n"]
    line ends, for lines without newline and not ending in ["\r"]. *)
Theorem lines_manifest_lf (ls : list string) :
  Forall (fun l => has_newline l = false /\ ends_with_cr l = false) ls ->
  lines (manifest_of (String "010"%char "") ls) = ls.
Proof. apply lines_manifest_lf_gen. Qed.

Lemma has_newline_cr (l : string) :
  has_newline l = false -> has_newline (l ++ String "013"%char "") = false.
Proof.
  unfold has_newline. rewrite list_ascii_app. rewrite existsb_app. intros ->. reflexivity.
Qed.

(** [str::lines] also reads back a manifest written with ["\r\n"] line ends:
    one ["\r"] before each ["\n"] is dropped. *)
Theorem lines_manifest_crlf (ls : list string) :
  Forall (fun l => has_newline l = false) ls ->
  lines (manifest_of (String "013"%char (String "010"%char "")) ls) = ls.
Proof.
  induction 1 as [|l ls Hn _ IH]; [reflexivity|].
  unfold lines in *. rewrite manifest_of_cons.
  replace (l ++ String "013"%char (String "010"%char ""))%string
    with ((l ++ String "013"%char "") ++ String "010"%char "")%string
    by (rewrite append_assoc_s; reflexivity).
  rewrite (append_assoc_s (l ++ String "013"%char "")). simpl.
  rewrite lines_from_line by (apply has_newline_cr; exact Hn). simpl.
  rewrite strip_cr_cr. now rewrite IH.
Qed.

Section ManifestFacts.
Context `{Host}.

(** Every path [parse_input_file] returns names an existing file. *)
Theorem parse_input_file_all_files (input : string) (ps : list string) :
  parse_input_file input = Ret ps -> Forall (fun p => is_file p = true) ps.
Proof.
  unfold parse_input_file.
  destruct (read_to_string input) as [text|e]; [|discriminate].
  destruct (map_or_panic parse_line (lines text)) as [ls|]; [|discriminate].
  destruct (filter (fun v => negb (is_file v)) ls) as [|x r] eqn:Hf; [|discriminate].
  intros Hr. inversion Hr; subst. apply Forall_forall. intros p Hp.
  destruct (is_file p) eqn:Hp'; [reflexivity|].
  assert (In p (filter (fun v => negb (is_file v)) ps)) by (apply filter_In; rewrite Hp'; auto).
  rewrite Hf in H0. contradiction.
Qed.



End ManifestFacts.

Lemma parse_digits_bound (s : string) (acc n : N) :
  (acc < 2 ^ 64)%N -> parse_digits s acc = Some n -> (n < 2 ^ 64)%N.
Proof.
  revert acc. induction s as [|c s IH]; intros acc Hacc Hp; cbn [parse_digits] in Hp.
  - now inversion Hp; subst.
  - revert Hp. destruct (digit_val c) as [d|]; [|intros; discriminate].
    destruct (N.ltb_spec (acc * 10 + d) (2 ^ 64)); [|intros; discriminate].
    intros Hp. eapply IH; eauto.
Qed.

(** The id parser yields only [u64] values, and rejects a query that starts
    with white space. *)
Theorem parse_u64_range (s : string) (n : N) :
  parse_u64 s = Some n ->
  (n < 2 ^ 64)%N /\ (forall c r, s = String c r -> is_ws c = false).
Proof.
  intros Hp. split.
  - unfold parse_u64 in Hp. destruct s as [|c r]; [discriminate|].
    destruct (Ascii.eqb c "+"%char).
    + destruct r; [discriminate|]. eapply parse_digits_bound; [|exact Hp]. reflexivity.
    + eapply parse_digits_bound; [|exact Hp]. reflexivity.
  - intros c r ->. destruct (is_ws c) eqn:Hw; [|reflexivity]. exfalso.
    unfold parse_u64 in Hp.
    destruct (Ascii.eqb c "+"%char) eqn:Hplus.
    + apply Ascii.eqb_eq in Hplus. subst. discriminate Hw.
    + simpl in Hp. unfold digit_val in Hp.
      unfold is_ws in Hw.
      destruct (Nat.leb 48 (nat_of_ascii c) && Nat.leb (nat_of_ascii c) 57) eqn:Hd;
        [|discriminate].
      apply andb_true_iff in Hd as [Hd1 Hd2]. apply Nat.leb_le in Hd1, Hd2.
      apply orb_true_iff in Hw as [Hw|Hw].
      * apply andb_true_iff in Hw as [_ Hw]. apply Nat.leb_le in Hw. lia.
      * apply Nat.eqb_eq in Hw. lia.
Qed.

Definition has_slash (s : string) : bool :=
  existsb (fun c => Ascii.eqb c "/"%char) (list_ascii_of_string s).

Transparent prefix.

Lemma index_slash (top rest : string) :
  has_slash top = false -> index 0 "/" (top ++ "/" ++ rest) = Some (String.length top).
Proof.
  induction top as [|c top IH]; intros Hs; [destruct rest; reflexivity|].
  unfold has_slash in Hs. simpl in Hs. apply orb_false_iff in Hs as [Hc Hs].
  assert (Hp : prefix "/" (String c (top ++ "/" ++ rest)) = false).
  { cbn [prefix]. destruct (ascii_dec "/" c) as [Heq|Hne];
      [subst c; discriminate Hc | reflexivity]. }
  change ((String c top ++ "/" ++ rest)%string) with (String c (top ++ "/" ++ rest)).
  cbn [index]. rewrite Hp, IH by exact Hs. reflexivity.
Qed.

Lemma substring_prefix (top rest : string) :
  substring 0 (String.length top) (top ++ rest) = top.
Proof.
  induction top as [|c top IH]; simpl.
  - destruct rest; reflexivity.
  - now rewrite IH.
Qed.

Section ClassifyFacts.
Context `{Host}.

(** Without a [--type] option, the media type depends only on the MIME
    top-level type: [image/*] is [Image], [audio/*] [Audio], [video/*]
    [Video], [text/*] [Text], any other [Other]. *)
Theorem classify_by_top_level (f top rest : string) :
  has_slash top = false -> tree_magic f = (top ++ "/" ++ rest)%string ->
  classify f None = kind_of_mime top.
Proof.
  intros Hs Hm. unfold classify, before_slash. rewrite Hm, index_slash by exact Hs.
  now rewrite substring_prefix.
Qed.

End ClassifyFacts.

(** ** More on media resolution *)

Section ResolverMore.
Context {E : Type} `{Library E}.

(** The file-name attempt returns one record per id of the engine's
    file-name lookup, in the engine's order. *)
Theorem get_all_order (lib : E) (ids : list N) (ms : list Media) :
  get_all lib ids = Found ms -> Forall2 (fun i m => get_media lib i = Ok m) ids ms.
Proof.
  revert ms. induction ids as [|i ids IH]; intros ms Hg; simpl in Hg.
  - inversion Hg; constructor.
  - revert Hg. destruct (get_media lib i) as [m|e] eqn:Hm;
      destruct (get_all lib ids) as [ms'|] eqn:Hr; intros Hg; try discriminate Hg.
    inversion Hg; subst. constructor; auto.
Qed.

(** The id and hash attempts give exactly one record: any other number of
    records (none, or several) is the result of the file-name attempt. *)
Theorem closure_not_single_from_filename (lib : E) (q : string) (ms : list Media) :
  get_media_closure lib q = Found ms -> length ms <> 1 ->
  filename_attempt lib (trim q) = Found ms.
Proof.
  unfold get_media_closure. intros Hg Hlen.
  destruct (id_attempt lib q) as [m|].
  - inversion Hg; subst. simpl in Hlen. lia.
  - destruct (hash_attempt lib (trim q)) as [r|] eqn:Hh; [|exact Hg].
    subst r. exfalso. unfold hash_attempt in Hh.
    destruct (Nat.eqb _ _); [|discriminate].
    destruct (query_media lib (hash_predicate (trim q))) as [[|i ids]|e]; try discriminate.
    destruct (get_media lib i); inversion Hh; subst; simpl in Hlen; lia.
Qed.

(** When the id attempt fails and the hash attempt does not apply (wrong
    length) or its query fails, the result is that of the file-name
    lookup of the trimmed query. *)
Theorem closure_hash_fallback (lib : E) (q : string) :
  id_attempt lib q = None ->
  (String.length (trim q) <> get_hash_size lib * 2 \/
   exists e, query_media lib (hash_predicate (trim q)) = Err e) ->
  get_media_closure lib q = filename_attempt lib (trim q).
Proof.
  intros Hid Hh. unfold get_media_closure. rewrite Hid. unfold hash_attempt.
  destruct Hh as [Hlen | [e He]].
  - apply Nat.eqb_neq in Hlen. now rewrite Hlen.
  - rewrite He. now destruct (Nat.eqb _ _).
Qed.

End ResolverMore.

(** ** More on ingestion, series resolution and [do_add] *)

Section AddMore.
Context {E : Type} `{Library E} `{Host} `{Prompt E}.
Local Open Scope list_scope.

Local Ltac unfold_m' :=
  cbv beta iota delta [bind ret engine set_engine emit try_lib lift panic] in *.




(** A file gets an id only from the engine: either [add_media] returned it,
    or [add_media] reported [AlreadyExists(h)] and it is the first id of the
    engine's query for hash [h]. *)
Theorem ingest_one_some_provenance (opt : Add) (t c : option string) (f : string)
    (s s' : St) (i : N) :
  ingest_one opt t c f s = (Ret (Some i), s') ->
  fst (add_media (eng s) f (classify f (_type opt)) t c) = Ok i \/
  exists h ids, fst (add_media (eng s) f (classify f (_type opt)) t c) = Err (AlreadyExists h) /\
    query_media (snd (add_media (eng s) f (classify f (_type opt)) t c)) (hash_predicate h)
    = Ok (i :: ids).
Proof.
  unfold ingest_one, add_one_media. unfold_m'.
  destruct (add_media (eng s) f (classify f (_type opt)) t c) as [[j|[h|msg]] e1]; simpl.
  - intros Hr. inversion Hr; subst. now left.
  - destruct (query_media e1 (hash_predicate h)) as [[|j ids]|err] eqn:Hq; simpl.
    + intros Hr. discriminate Hr.
    + destruct (get_media e1 j); simpl; intros Hr; inversion Hr; subst.
      right. now exists h, ids.
    + intros Hr. discriminate Hr.
  - intros Hr. discriminate Hr.
Qed.

(** When the new series name is taken and the prompt fails, the prompt's
    error is returned: no series is created and nothing is logged. *)
Theorem resolve_series_prompt_error (opt : Add) (name e : string) (s : St) :
  series opt = None -> new_series opt = Some name ->
  is_ok (get_series_by_name (eng s) name) = true ->
  prompt_series_name (eng s) = Err e ->
  resolve_series opt s = (Fail e, s).
Proof.
  intros Hs Hn Hg Hp. unfold resolve_series. rewrite Hs, Hn. unfold_m'.
  rewrite Hg, Hp. reflexivity.
Qed.

(** A manifest that cannot be read, names a missing file, or panics stops
    [do_add] before any engine call: the library and the log are unchanged. *)
Theorem do_add_manifest_error (opt : Add) (inp : string) (s : St) :
  input opt = Some inp ->
  (forall e, parse_input_file inp = Fail e -> do_add opt s = (Fail e, s)) /\
  (parse_input_file inp = Panic -> do_add opt s = (Panic, s)).
Proof.
  intros Hi. unfold do_add. rewrite Hi. split.
  - intros e Hp. unfold_m'. now rewrite Hp.
  - intros Hp. unfold_m'. now rewrite Hp.
Qed.








End AddMore.

(** ** The [create] and [info] commands *)

Lemma ascii_lower_upper (c : ascii) : ascii_lower (ascii_upper c) = ascii_lower c.
Proof. destruct c as [[] [] [] [] [] [] [] []]; reflexivity. Qed.

Lemma lowercase_uppercase (s : string) :
  to_ascii_lowercase (to_ascii_uppercase s) = to_ascii_lowercase s.
Proof.
  induction s as [|c s IH]; [reflexivity|].
  unfold to_ascii_lowercase, to_ascii_uppercase in *. simpl.
  now rewrite ascii_lower_upper, IH.
Qed.

(** The type annotation is read case-insensitively: two spellings with the
    same ASCII lower-case form give the same type, or are both refused;
    in particular the upper-case spelling of an input is read as the input. *)
Theorem create_type_case_insensitive (s1 s2 : string) :
  (to_ascii_lowercase s1 = to_ascii_lowercase s2 ->
   ok_value (create_type_from_str s1) = ok_value (create_type_from_str s2)) /\
  ok_value (create_type_from_str (to_ascii_uppercase s1)) =
  ok_value (create_type_from_str s1).
Proof.
  assert (Hgen : forall a b, to_ascii_lowercase a = to_ascii_lowercase b ->
    ok_value (create_type_from_str a) = ok_value (create_type_from_str b)).
  { intros a b Hab. unfold create_type_from_str. rewrite Hab.
    repeat (destruct (String.eqb _ _); [reflexivity|]). reflexivity. }
  split; [apply Hgen|]. apply Hgen. apply lowercase_uppercase.
Qed.

Section OtherFacts.
Context {E : Type} `{Library E}.

(** [do_create] always creates a series: its outcome does not depend on the
    requested type. The library afterwards is the one [create_series]
    returns for the title and comment; one line is printed on success and
    none on failure. *)
Theorem do_create_ignores_type (t1 t2 : CreateType) (ti : string) (c : option string)
    (u : bool) (lib : E) :
  do_create (CreateCmd.mkCreate t1 ti c u) lib = do_create (CreateCmd.mkCreate t2 ti c u) lib /\
  snd (fst (do_create (CreateCmd.mkCreate t1 ti c u) lib)) = snd (create_series lib ti c) /\
  length (snd (do_create (CreateCmd.mkCreate t1 ti c u) lib)) =
  (if is_ok (fst (create_series lib ti c)) then 1 else 0).
Proof.
  unfold do_create; cbn [CreateCmd.title CreateCmd.comment CreateCmd.uuid_only].
  destruct (create_series lib ti c) as [[v|e] lib']; simpl; auto.
Qed.

(** [do_info] never reports an error. It panics exactly when a query is
    given and its resolution panics; otherwise it prints at least one line. *)
Theorem do_info_no_error (opt : InfoCmd.Info) (lib : E) :
  (forall e, fst (do_info opt lib) <> Fail e) /\
  (fst (do_info opt lib) = Panic <->
   exists v, InfoCmd.media opt = Some v /\ get_media_closure lib v = Panicked) /\
  (fst (do_info opt lib) = Ret tt -> snd (do_info opt lib) <> []).
Proof.
  unfold do_info. destruct (InfoCmd.media opt) as [v|].
  - destruct (get_media_closure lib v) as [[|m ms]|] eqn:Hg; simpl.
    + split; [intros e; discriminate|]. split; [|intros _; discriminate].
      split; [intros Hp; discriminate|]. intros (v' & Hv & Hp). inversion Hv; subst.
      congruence.
    + split; [intros e; discriminate|]. split; [|intros _; discriminate].
      split; [intros Hp; discriminate|]. intros (v' & Hv & Hp). inversion Hv; subst.
      congruence.
    + split; [intros e; discriminate|]. split; [|intros Hp; discriminate].
      split; [intros _; now exists v|reflexivity].
  - simpl. split; [intros e; discriminate|]. split; [|intros _; discriminate].
    split; [intros Hp; discriminate|]. intros (v' & Hv & _). discriminate.
Qed.

End OtherFacts.

(** ** Concrete runs of the properties above *)

Definition lf : string := String "010"%char "".
Definition crlf : string := String "013"%char lf.

(** A host whose manifest names one file with a path of 12 bytes. *)
Definition host_album : Host :=
  Build_Host (fun _ => Ok (manifest_of lf ["album/01.png"]))
             (fun p => String.eqb p "album/01.png")
             (fun v => Some (substring 7 (String.length v - 7) v))
             (fun _ => "image/png").

(** A prompt that is interrupted. *)
Definition prompt_fail : Prompt Lib := Build_Prompt Lib (fun _ => Err "interrupted").

(** Two records sharing a file name. *)
Definition ma : Media := mkMedia 1 "h1" "a.png" Image.
Definition mb : Media := mkMedia 2 "h2" "a.png" Image.
Definition lib_twin : Lib := mkLib [ma; mb] [] [] 1 true true.

(** [lib_ab] whose hash query fails. *)
Definition lib_ab_qfail : Lib := mkLib [m1] [] [] 1 false true.

(** [lib_ab] with the series name ["s"] taken. *)
Definition lib_taken : Lib := with_series lib_ab [("s", "uuid:s")].


Definition opt_missing : Add := mkAdd None None None [] (Some "missing.txt") None None false.

Lemma lines_manifest_lf_witness :
  Forall (fun l => has_newline l = false /\ ends_with_cr l = false) ["a.png"; "b c"] /\
  lines (manifest_of lf ["a.png"; "b c"]) = ["a.png"; "b c"].
Proof.
  split; [repeat constructor|].
  apply (lines_manifest_lf ["a.png"; "b c"]). repeat constructor.
Defined.

Lemma lines_manifest_crlf_witness :
  Forall (fun l => has_newline l = false) ["a.png"; String "013"%char ""] /\
  lines (manifest_of crlf ["a.png"; String "013"%char ""]) = ["a.png"; String "013"%char ""].
Proof.
  split; [repeat constructor|].
  apply (lines_manifest_crlf ["a.png"; String "013"%char ""]). repeat constructor.
Defined.

Lemma parse_input_file_all_files_witness :
  @parse_input_file host_album "m.txt" = Ret ["album/01.png"] /\
  Forall (fun p => @is_file host_album p = true) ["album/01.png"].
Proof.
  split; [reflexivity|].
  apply (@parse_input_file_all_files host_album "m.txt" ["album/01.png"]). reflexivity.
Defined.


Lemma parse_u64_range_witness : parse_u64 "42" = Some 42%N /\ (42 < 2 ^ 64)%N.
Proof. split; [reflexivity|]. exact (proj1 (parse_u64_range "42" 42 eq_refl)). Defined.

Lemma classify_by_top_level_witness :
  has_slash "image" = false /\ classify "a.png" None = kind_of_mime "image".
Proof.
  split; [reflexivity|].
  apply (classify_by_top_level "a.png" "image" "png"); reflexivity.
Defined.

Lemma id_attempt_wins_witness :
  parse_u64 "1" = Some 1%N /\ get_media_closure lib_ab "1" = Found [m1].
Proof.
  split; [reflexivity|].
  apply (id_attempt_wins lib_ab "1" 1 m1); reflexivity.
Defined.

Lemma get_all_order_witness :
  get_all lib_twin [1; 2]%N = Found [ma; mb] /\
  Forall2 (fun i m => get_media lib_twin i = Ok m) [1; 2]%N [ma; mb].
Proof.
  split; [reflexivity|].
  apply (get_all_order lib_twin [1; 2]%N [ma; mb]). reflexivity.
Defined.

Lemma closure_not_single_from_filename_witness :
  get_media_closure lib_twin " a.png" = Found [ma; mb] /\
  filename_attempt lib_twin (trim " a.png") = Found [ma; mb].
Proof.
  split; [reflexivity|].
  apply (closure_not_single_from_filename lib_twin " a.png" [ma; mb]);
    [reflexivity | simpl; discriminate].
Defined.

Lemma closure_hash_fallback_witness :
  String.length (trim " ab") = get_hash_size lib_ab_qfail * 2 /\
  get_media_closure lib_ab_qfail " ab" = Found [m1].
Proof.
  split; [reflexivity|].
  rewrite (closure_hash_fallback lib_ab_qfail " ab" eq_refl);
    [reflexivity | right; exists (OtherError "db"); reflexivity].
Defined.

Lemma ingest_one_some_provenance_witness :
  exists s', ingest_one opt_plain None None "c.png" (st0 lib_dup) = (Ret (Some 1%N), s') /\
  (fst (add_media lib_dup "c.png" (classify "c.png" None) None None) = Ok 1%N \/
   exists h ids,
     fst (add_media lib_dup "c.png" (classify "c.png" None) None None) = Err (AlreadyExists h) /\
     query_media (snd (add_media lib_dup "c.png" (classify "c.png" None) None None))
       (hash_predicate h) = Ok (1%N :: ids)).
Proof.
  eexists. split; [reflexivity|].
  exact (ingest_one_some_provenance opt_plain None None "c.png" (st0 lib_dup) _ 1 eq_refl).
Defined.

Lemma resolve_series_prompt_error_witness :
  is_ok (get_series_by_name lib_taken "s") = true /\
  @resolve_series Lib lib prompt_fail (add_opt false None (Some "s")) (st0 lib_taken)
  = (Fail "interrupted", st0 lib_taken).
Proof.
  split; [reflexivity|].
  apply (@resolve_series_prompt_error Lib lib prompt_fail (add_opt false None (Some "s"))
           "s" "interrupted" (st0 lib_taken)); reflexivity.
Defined.

Lemma do_add_manifest_error_witness :
  parse_input_file "missing.txt" = Fail "No such file" /\
  do_add opt_missing (st0 lib_ab) = (Fail "No such file", st0 lib_ab).
Proof.
  split; [reflexivity|].
  apply (proj1 (do_add_manifest_error opt_missing "missing.txt" (st0 lib_ab) eq_refl)).
  reflexivity.
Defined.



Lemma create_type_case_insensitive_witness :
  create_type_from_str "sErIeS" = Ok Series /\
  ok_value (create_type_from_str "sErIeS") = ok_value (create_type_from_str "SERIES").
Proof.
  split; [reflexivity|].
  apply (proj1 (create_type_case_insensitive "sErIeS" "SERIES")). reflexivity.
Defined.

Lemma do_info_no_error_witness :
  fst (do_info (InfoCmd.mkInfo (Some "zz") false) lib_ab) = Ret tt /\
  snd (do_info (InfoCmd.mkInfo (Some "zz") false) lib_ab) <> [].
Proof.
  split; [reflexivity|].
  apply (proj2 (proj2 (do_info_no_error (InfoCmd.mkInfo (Some "zz") false) lib_ab))).
  reflexivity.
Defined.
